(** * The EJC map: data preparation and the order of effects in [main]

    A shallow embedding of [main.py].  The program loads a colour palette
    (JSON) and a list of conventions (CSV), groups the rows that share a host
    location, joins the group summaries back on the rows, attaches a colour
    to every row by position, and hands the frame to the plotting library.

    pandas frames are modelled as lists of rows over the fixed schema
    [issue; year; city; country; latitude; longitude]; the operations the
    source calls on them ([filter], [groupby.agg], [reset_index], [merge],
    [assign]) are modelled on such lists with pandas' documented defaults
    ([groupby]: [sort=True], [dropna=True]; [merge]: keeps the order of the
    left frame, a missing key matches a missing key).  Text is a string of
    bytes (UTF-8), on which Python's order by code point is the order of the
    bytes; a coordinate is an IEEE 754 value.  Exceptions are values of
    [result]; file access and the plotting calls thread a [World].  What the
    source calls in its libraries without defining (the parsers, the float
    printer, the serialisers of a figure) is a parameter, see [Library]. *)

From Stdlib Require Import ZArith List String Ascii Bool Lia Permutation Sorted.
From Stdlib Require Import DecimalString.
From Corelib Require Import SpecFloat.
Import ListNotations.

Local Open Scope string_scope.
Local Open Scope list_scope.

(** ** Exceptions *)

Inductive exn : Type :=
| FileNotFoundError
| JSONDecodeError
| ParserError
| KeyError
| TypeError
| ZeroDivisionError
| ValueError.

Inductive result (A : Type) : Type :=
| Ok (a : A)
| Raise (e : exn).

Arguments Ok {A} a.
Arguments Raise {A} e.

Definition result_bind {A B : Type} (r : result A) (k : A -> result B) : result B :=
  match r with
  | Ok a => k a
  | Raise e => Raise e
  end.

(** ** Cells and rows *)

(** A cell of the [issue] or [year] column: a Python [int], [float] or
    [str].  A missing cell is the float NaN.  After grouping these columns
    hold the concatenated strings; after the join they hold such a string
    or NaN. *)
Inductive scalar : Type :=
| Int (z : Z)
| Flt (f : spec_float)
| Str (s : string).

Definition NaN : scalar := Flt S754_nan.

(** The four key columns.  A text cell is [None] when the field is missing
    (NaN in an object column); a coordinate is an IEEE 754 value (a finite
    one by its sign, mantissa and exponent, as binary64 stores it), NaN
    when missing. *)
Record LocationKey : Type := mkKey {
  city : option string;
  country : option string;
  latitude : spec_float;
  longitude : spec_float
}.

(** A row of a frame with the six columns of the dataset.  The raw frame,
    the grouped frame (after [reset_index]) and the joined frame all have
    this shape. *)
Record Row : Type := mkRow {
  issue : scalar;
  year : scalar;
  loc : LocationKey
}.

(** A row of the frame [prepare_ejcs] returns: the joined row and the
    [color] column. *)
Record AnnotatedRecord (C : Type) : Type := mkAnnotated {
  row : Row;
  color : C
}.

Arguments mkAnnotated {C} row color.
Arguments row {C} a.
Arguments color {C} a.

(** ** JSON values, figures and the world *)

(** What [json.load] returns.  A [JDict] lists the items of the dict in
    insertion order, keys distinct. *)
#[warnings="-register-all"]
Inductive json : Type :=
| JNull
| JBool (b : bool)
| JInt (z : Z)
| JFloat (f : spec_float)
| JStr (s : string)
| JList (l : list json)
| JDict (items : list (string * json)).

(** A [go.Figure], as far as this program sets it up: the coordinates of
    the path trace, the rows behind the markers (with the hover data), and
    the pixel size once [update_layout] has set it. *)
Record Figure : Type := mkFigure {
  line_path : list (spec_float * spec_float);
  markers : list (AnnotatedRecord json);
  layout_size : option (Z * Z)
}.

(** The world the program runs in: the text files by path, and the figures
    shown so far. *)
Record World : Type := mkWorld {
  files : list (string * string);
  shown : list Figure
}.

(** The library functions the source calls without defining them, taken as
    parameters: Python's [repr] of a float, the JSON and CSV parsers, and the
    plotting library's serialisers. *)
Class Library : Type := {
  float_repr : spec_float -> string;
  json_loads : string -> result json;
  csv_parse : string -> string -> result (list Row);
  to_html : Figure -> string;
  to_image : Figure -> Z -> Z -> string
}.

(** Python's [str] on a cell. *)
Definition str {L : Library} (v : scalar) : string :=
  match v with
  | Int z => NilZero.string_of_int (Z.to_int z)
  | Flt f => float_repr f
  | Str s => s
  end.

(** ** Equality and order of keys, as pandas' factorisation has them *)

Definition is_nan (f : spec_float) : bool :=
  match f with
  | S754_nan => true
  | _ => false
  end.

(** Two float keys fall in the same bucket when they are [==], or both NaN. *)
Definition float_eq (a b : spec_float) : bool :=
  SFeqb a b || (is_nan a && is_nan b).

Definition obj_eq (a b : option string) : bool :=
  match a, b with
  | Some x, Some y => String.eqb x y
  | None, None => true
  | _, _ => false
  end.

Definition key_eq (a b : LocationKey) : bool :=
  obj_eq (city a) (city b) && obj_eq (country a) (country b)
  && float_eq (latitude a) (latitude b) && float_eq (longitude a) (longitude b).

(** A key with a missing field; [groupby] leaves such rows out. *)
Definition obj_isna (a : option string) : bool :=
  match a with
  | None => true
  | Some _ => false
  end.

Definition key_isna (k : LocationKey) : bool :=
  obj_isna (city k) || obj_isna (country k)
  || is_nan (latitude k) || is_nan (longitude k).

(** The order in which [groupby] sorts the group keys: column by column,
    text by code point and coordinates by value.  A key with a missing
    field is never sorted. *)
Definition obj_compare (a b : option string) : comparison :=
  match a, b with
  | Some x, Some y => String.compare x y
  | None, None => Eq
  | None, Some _ => Gt
  | Some _, None => Lt
  end.

Definition float_compare (a b : spec_float) : comparison :=
  match SFcompare a b with
  | Some c => c
  | None => Eq
  end.

Definition lex (c1 c2 : comparison) : comparison :=
  match c1 with
  | Eq => c2
  | _ => c1
  end.

Definition key_compare (a b : LocationKey) : comparison :=
  lex (obj_compare (city a) (city b))
    (lex (obj_compare (country a) (country b))
       (lex (float_compare (latitude a) (latitude b))
          (float_compare (longitude a) (longitude b)))).

Definition key_leb (a b : LocationKey) : bool :=
  match key_compare a b with
  | Gt => false
  | _ => true
  end.

(** ** [_group_same_hosts] *)

(** The distinct keys of a list, each at its first appearance. *)
Fixpoint unique_keys (ks : list LocationKey) : list LocationKey :=
  match ks with
  | [] => []
  | k :: rest => k :: filter (fun k' => negb (key_eq k' k)) (unique_keys rest)
  end.

Fixpoint insert_key (k : LocationKey) (l : list LocationKey) : list LocationKey :=
  match l with
  | [] => [k]
  | h :: t => if key_leb k h then k :: l else h :: insert_key k t
  end.

Definition sort_keys (ks : list LocationKey) : list LocationKey :=
  fold_right insert_key [] ks.

(** The group keys of [df.groupby([city, country, latitude, longitude])]:
    the keys without a missing field, distinct, sorted. *)
Definition group_keys (df : list Row) : list LocationKey :=
  sort_keys (unique_keys (filter (fun k => negb (key_isna k)) (map loc df))).

(** The rows of one group, in the order of the frame. *)
Definition members (df : list Row) (k : LocationKey) : list Row :=
  filter (fun r => key_eq (loc r) k) df.

(** [lambda x: " | ".join(map(str, x))] *)
Definition join_labels {L : Library} (x : list scalar) : string :=
  String.concat " | " (map str x).

Definition summarize {L : Library} (df : list Row) (k : LocationKey) : Row :=
  {| issue := Str (join_labels (map issue (members df k)));
     year := Str (join_labels (map year (members df k)));
     loc := k |}.

Definition _group_same_hosts {L : Library} (df_ejcs : list Row) : list Row :=
  map (summarize df_ejcs) (group_keys df_ejcs).

(** ** [_join_ejcs_grouped] *)

(** [df.filter(["city", "country", "latitude", "longitude"])] *)
Definition filter_key_columns (df : list Row) : list LocationKey :=
  map loc df.

(** [left.merge(right, on=[the four key columns], how="left")]: every left
    row in turn, once per matching right row, or once with the right
    columns missing when nothing matches. *)
Definition merge_left (left : list LocationKey) (right : list Row) : list Row :=
  flat_map
    (fun k =>
       match filter (fun g => key_eq k (loc g)) right with
       | [] => [ {| issue := NaN; year := NaN; loc := k |} ]
       | ms => map (fun g => {| issue := issue g; year := year g; loc := k |}) ms
       end)
    left.

Definition _join_ejcs_grouped (df_ejcs df_ejcs_grouped : list Row) : list Row :=
  merge_left (filter_key_columns df_ejcs) df_ejcs_grouped.

(** ** [_extend_colors] *)

(** Python's [divmod] on integers. *)
Definition divmod (a b : Z) : result (Z * Z) :=
  if (b =? 0)%Z then Raise ZeroDivisionError else Ok ((a / b)%Z, (a mod b)%Z).

(** [q * l] on a list: [q] copies, none when [q <= 0]. *)
Definition list_mul {A : Type} (q : Z) (l : list A) : list A :=
  List.concat (repeat l (Z.to_nat q)).

(** [l[:r]]: a negative bound counts from the end. *)
Definition slice_to {A : Type} (l : list A) (r : Z) : list A :=
  if (r <? 0)%Z
  then firstn (Z.to_nat (Z.of_nat (List.length l) + r)) l
  else firstn (Z.to_nat r) l.

Definition _extend_colors {A : Type} (colors : list A) (n_entries : Z) : result (list A) :=
  result_bind (divmod n_entries (Z.of_nat (List.length colors)))
    (fun '(q, r) =>
       let extended_colors := list_mul q colors ++ slice_to colors r in
       Ok extended_colors).

(** [df.assign(color=values)] with a list: the lengths must agree. *)
Definition assign_color {C : Type} (df : list Row) (values : list C)
  : result (list (AnnotatedRecord C)) :=
  if Nat.eqb (List.length values) (List.length df)
  then Ok (map (fun p => mkAnnotated (fst p) (snd p)) (combine df values))
  else Raise ValueError.

(** ** The state and error monad of the effectful functions *)

Definition IO (A : Type) : Type := World -> result A * World.

Definition ret {A : Type} (a : A) : IO A := fun w => (Ok a, w).

Definition raise {A : Type} (e : exn) : IO A := fun w => (Raise e, w).

Definition bind {A B : Type} (c : IO A) (k : A -> IO B) : IO B :=
  fun w =>
    match c w with
    | (Ok a, w') => k a w'
    | (Raise e, w') => (Raise e, w')
    end.

Definition lift {A : Type} (r : result A) : IO A := fun w => (r, w).

Notation "x <- c ;; k" := (bind c (fun x => k))
  (at level 61, c at next level, right associativity).
Notation "c ;;; k" := (bind c (fun _ => k))
  (at level 61, right associativity).

Fixpoint lookup {V : Type} (k : string) (l : list (string * V)) : option V :=
  match l with
  | [] => None
  | (k', v) :: rest => if String.eqb k k' then Some v else lookup k rest
  end.

(** [open(filename)] and reading the text: fails on a missing file, changes
    nothing. *)
Definition read_text (filename : string) : IO string :=
  fun w =>
    match lookup filename (files w) with
    | Some text => (Ok text, w)
    | None => (Raise FileNotFoundError, w)
    end.

Definition write_text (filename text : string) : IO unit :=
  fun w =>
    (Ok tt,
     {| files := (filename, text)
                 :: filter (fun p => negb (String.eqb (fst p) filename)) (files w);
        shown := shown w |}).

(** [pd.read_csv(filename, sep=sep)] *)
Definition read_csv {L : Library} (filename sep : string) : IO (list Row) :=
  text <- read_text filename ;;
  lift (csv_parse sep text).

(** ** [_read_colors] *)

Fixpoint chars (s : string) : list string :=
  match s with
  | EmptyString => []
  | String c rest => String c EmptyString :: chars rest
  end.

(** [for color in colors] *)
Definition iterate (v : json) : result (list json) :=
  match v with
  | JList l => Ok l
  | JDict items => Ok (map (fun p => JStr (fst p)) items)
  | JStr s => Ok (map JStr (chars s))
  | _ => Raise TypeError
  end.

(** [color["color"]] *)
Definition getitem (v : json) (k : string) : result json :=
  match v with
  | JDict items =>
      match lookup k items with
      | Some x => Ok x
      | None => Raise KeyError
      end
  | _ => Raise TypeError
  end.

Fixpoint map_result {A B : Type} (f : A -> result B) (l : list A) : result (list B) :=
  match l with
  | [] => Ok []
  | a :: rest =>
      result_bind (f a) (fun b =>
      result_bind (map_result f rest) (fun bs => Ok (b :: bs)))
  end.

Definition _read_colors {L : Library} (filename : string) : IO (list json) :=
  text <- read_text filename ;;
  colors <- lift (json_loads text) ;;
  lift (result_bind (iterate colors)
          (map_result (fun color => getitem color "color"))).

(** ** [prepare_ejcs] *)

Definition prepare_ejcs {L : Library} {C : Type} (filename : string) (colors : list C)
  : IO (list (AnnotatedRecord C)) :=
  df_ejcs_raw <- read_csv filename ";" ;;
  let df_ejcs_grouped := _group_same_hosts df_ejcs_raw in
  let df_ejcs := _join_ejcs_grouped df_ejcs_raw df_ejcs_grouped in
  extended_colors <- lift (_extend_colors colors (Z.of_nat (List.length df_ejcs_raw))) ;;
  lift (assign_color df_ejcs extended_colors).

(** ** [create_map], [create_output] and [main] *)

Definition create_map (df_ejcs : list (AnnotatedRecord json)) : Figure :=
  {| line_path := map (fun a => (latitude (loc (row a)), longitude (loc (row a)))) df_ejcs;
     markers := df_ejcs;
     layout_size := None |}.

Definition update_layout (fig : Figure) (width height : Z) : Figure :=
  {| line_path := line_path fig;
     markers := markers fig;
     layout_size := Some (width, height) |}.

Definition show (fig : Figure) : IO unit :=
  fun w => (Ok tt, {| files := files w; shown := shown w ++ [fig] |}).

Definition write_html {L : Library} (fig : Figure) (filename : string) : IO unit :=
  write_text filename (to_html fig).

Definition write_image {L : Library} (fig : Figure) (filename : string) (width height : Z)
  : IO unit :=
  write_text filename (to_image fig width height).

Definition create_output {L : Library} (fig : Figure) (width height : Z)
    (output_folder : string) (show_figure save_figure : bool) : IO unit :=
  let fig := update_layout fig width height in
  (if show_figure then show fig else ret tt) ;;;
  (if save_figure
   then
     let filename := "ejc_map" in
     write_html fig (output_folder ++ "/" ++ filename ++ ".html") ;;;
     write_html fig "index.html" ;;;
     write_image fig (output_folder ++ "/" ++ filename ++ ".webp") width height
   else ret tt).

Definition filename_colors : string := "resources/colors.json".
Definition filename_ejcs : string := "resources/list_of_ejcs.csv".
Definition width_px : Z := 1000.
Definition height_px : Z := 800.

Definition main {L : Library} : IO unit :=
  colors <- _read_colors filename_colors ;;
  df_ejcs <- prepare_ejcs filename_ejcs colors ;;
  let fig := create_map df_ejcs in
  create_output fig width_px height_px "output" true true.

(** ** What a row of the joined frame holds *)

(** The joined row of raw row [r] in frame [df]: the key columns of [r], and in
    the [issue] and [year] columns the labels of all rows of [df] at the key
    of [r], or NaN when the key of [r] has a missing field. *)
Definition annotate {L : Library} (df : list Row) (r : Row) : Row :=
  if key_isna (loc r)
  then {| issue := NaN; year := NaN; loc := loc r |}
  else {| issue := Str (join_labels (map issue (members df (loc r))));
          year := Str (join_labels (map year (members df (loc r))));
          loc := loc r |}.

(** The bucket of a float key: the two zeros are one key. *)
Definition float_class (f : spec_float) : spec_float :=
  match f with
  | S754_zero _ => S754_zero false
  | _ => f
  end.

Definition key_class (k : LocationKey) : LocationKey :=
  {| city := city k;
     country := country k;
     latitude := float_class (latitude k);
     longitude := float_class (longitude k) |}.

(** ** Sample data *)

Definition newline : string := String (ascii_of_nat 10) EmptyString.

Definition csv_header : string := "issue;year;city;country;latitude;longitude" ++ newline.

Definition csv_paris : string :=
  csv_header
  ++ "1;1990;Paris;France;48.85;2.35" ++ newline
  ++ "2;1995;Paris;France;48.85;2.35" ++ newline.

Definition paris : LocationKey :=
  {| city := Some "Paris";
     country := Some "France";
     latitude := S754_finite false 6875026306157773 (-47);
     longitude := S754_finite false 5291729562160333 (-51) |}.

Definition df_paris : list Row :=
  [ {| issue := Int 1; year := Int 1990; loc := paris |};
    {| issue := Int 2; year := Int 1995; loc := paris |} ].

(** A row whose latitude field is empty in the file. *)
Definition row_no_latitude : Row :=
  {| issue := Int 1;
     year := Int 1990;
     loc := {| city := Some "Paris";
               country := Some "France";
               latitude := S754_nan;
               longitude := S754_finite false 5291729562160333 (-51) |} |}.

(** An instance of [Library] for the examples: it prints the special floats
    as Python does, and parses the sample texts above and the empty JSON
    list. *)
Definition sample_library : Library :=
  {| float_repr := fun f =>
       match f with
       | S754_nan => "nan"
       | S754_infinity false => "inf"
       | S754_infinity true => "-inf"
       | S754_zero false => "0.0"
       | S754_zero true => "-0.0"
       | S754_finite _ _ _ => "?"
       end;
     json_loads := fun text =>
       if String.eqb text "[]" then Ok (JList []) else Raise JSONDecodeError;
     csv_parse := fun sep text =>
       if String.eqb text csv_header then Ok []
       else if String.eqb text csv_paris then Ok df_paris
       else Raise ParserError;
     to_html := fun _ => "";
     to_image := fun _ _ _ => "" |}.

Definition world_paris : World :=
  {| files := [ (filename_ejcs, csv_paris); (filename_colors, "[]") ];
     shown := [] |}.

Definition world_empty_dataset : World :=
  {| files := [ (filename_ejcs, csv_header) ]; shown := [] |}.

Definition berlin : LocationKey :=
  {| city := Some "Berlin";
     country := Some "Germany";
     latitude := S754_finite false 7391532888421827 (-47);
     longitude := S754_finite false 7546344125612687 (-49) |}.

Definition row_berlin : Row :=
  {| issue := Int 3; year := Int 2000; loc := berlin |}.

(** The same files as [world_paris], after a figure was shown. *)
Definition world_paris_shown : World :=
  {| files := files world_paris;
     shown := [ create_map [] ] |}.

(** ** Two readings of the specification, to compare with the code *)

(** The prepared rows keep each raw row's own [issue] and [year]: some
    reading of an output row gives back the two fields of the raw row at
    its position. *)
Definition keeps_own_fields {C : Type} (df : list Row)
    (out : list (AnnotatedRecord C)) : Prop :=
  exists own : AnnotatedRecord C -> scalar * scalar,
    forall i r a,
      nth_error df i = Some r -> nth_error out i = Some a ->
      own a = (issue r, year r).

(** Every key that occurs in the frame has exactly one summary, holding the
    labels of its rows. *)
Definition one_summary_per_key {L : Library} (df : list Row) : Prop :=
  forall r, In r df ->
    exists g,
      filter (fun g => key_eq (loc r) (loc g)) (_group_same_hosts df) = [g]
      /\ issue g = Str (String.concat " | " (map str (map issue (members df (loc r)))))
      /\ year g = Str (String.concat " | " (map str (map year (members df (loc r))))).

(** ** Further notions and sample data *)

(** A row whose four key fields are all present. *)
Definition complete (r : Row) : bool := negb (key_isna (loc r)).

(** The rows of the right frame that the merge pairs with a left key. *)
Definition matches (k : LocationKey) (right : list Row) : list Row :=
  filter (fun g => key_eq k (loc g)) right.

(** Strictly before, in the order of the group keys. *)
Definition key_lt (a b : LocationKey) : Prop := key_compare a b = Lt.

(** No two keys of the list are equal. *)
Fixpoint distinct_keys (ks : list LocationKey) : Prop :=
  match ks with
  | [] => True
  | k :: rest => (forall k', In k' rest -> key_eq k' k = false) /\ distinct_keys rest
  end.

(** The three files [create_output] writes under [output_folder]. *)
Definition html_path (output_folder : string) : string :=
  output_folder ++ "/" ++ "ejc_map" ++ ".html".


Definition dquote : string := String (ascii_of_nat 34) EmptyString.

(** The text of a palette file with the two colours red and green. *)
Definition json_palette : string :=
  "[{" ++ dquote ++ "color" ++ dquote ++ ": " ++ dquote ++ "red" ++ dquote ++ "}, {"
  ++ dquote ++ "color" ++ dquote ++ ": " ++ dquote ++ "green" ++ dquote ++ "}]".

Definition palette_red_green : json :=
  JList [ JDict [ ("color", JStr "red") ]; JDict [ ("color", JStr "green") ] ].

(** [sample_library], reading [json_palette] as well. *)
Definition palette_library : Library :=
  {| float_repr := float_repr (Library := sample_library);
     json_loads := fun text =>
       if String.eqb text json_palette then Ok palette_red_green
       else json_loads (Library := sample_library) text;
     csv_parse := csv_parse (Library := sample_library);
     to_html := fun _ => "<html>";
     to_image := fun _ _ _ => "RIFF" |}.

(** [sample_library] with a JSON parser that reads every text as [j]. *)
Definition library_reading (j : json) : Library :=
  {| float_repr := float_repr (Library := sample_library);
     json_loads := fun _ => Ok j;
     csv_parse := csv_parse (Library := sample_library);
     to_html := to_html (Library := sample_library);
     to_image := to_image (Library := sample_library) |}.

Definition world_full : World :=
  {| files := [ (filename_colors, json_palette); (filename_ejcs, csv_paris) ];
     shown := [] |}.

Definition world_no_dataset : World :=
  {| files := [ (filename_colors, "[]") ]; shown := [] |}.

(** * Properties *)

(** ** Key equality is an equivalence *)

Lemma float_eq_iff (a b : spec_float) :
  float_eq a b = true <-> float_class a = float_class b.
Proof.
  unfold float_eq, SFeqb.
  destruct a as [sa|sa| |sa ma ea], b as [sb|sb| |sb mb eb]; simpl;
    try (split; [ discriminate | congruence ]);
    try (split; reflexivity);
    try (destruct sa; simpl; split; congruence);
    try (destruct sb; simpl; split; congruence).
  - destruct sa, sb; simpl; split; congruence.
  - change (PosDef.Pos.compare_cont Eq ma mb) with (Pos.compare ma mb).
    destruct sa, sb; simpl; try (split; congruence);
      destruct (Z.compare_spec ea eb) as [He|He|He]; simpl;
      try (split; [ discriminate | intros E; injection E; lia ]);
      destruct (Pos.compare_spec ma mb) as [Hm|Hm|Hm]; simpl;
      try (split; [ discriminate | intros E; injection E; lia ]);
      subst; split; reflexivity.
Qed.

Lemma obj_eq_iff (a b : option string) : obj_eq a b = true <-> a = b.
Proof.
  destruct a as [x|], b as [y|]; simpl; try (split; congruence).
  rewrite String.eqb_eq. split; congruence.
Qed.

Lemma key_eq_iff (a b : LocationKey) :
  key_eq a b = true <-> key_class a = key_class b.
Proof.
  unfold key_eq, key_class.
  rewrite !andb_true_iff, !obj_eq_iff, !float_eq_iff.
  destruct a, b; simpl. split.
  - intros [[[-> ->] ->] ->]. reflexivity.
  - intros E. injection E. auto.
Qed.

Lemma key_eq_refl (a : LocationKey) : key_eq a a = true.
Proof. apply key_eq_iff. reflexivity. Qed.

Lemma key_eq_sym (a b : LocationKey) : key_eq a b = key_eq b a.
Proof.
  destruct (key_eq a b) eqn:E1, (key_eq b a) eqn:E2; try reflexivity.
  - apply key_eq_iff in E1. symmetry in E1. apply key_eq_iff in E1. congruence.
  - apply key_eq_iff in E2. symmetry in E2. apply key_eq_iff in E2. congruence.
Qed.

Lemma key_eq_trans (a b c : LocationKey) :
  key_eq a b = true -> key_eq b c = true -> key_eq a c = true.
Proof.
  rewrite !key_eq_iff. congruence.
Qed.

Lemma key_eq_congr (a b c : LocationKey) :
  key_eq a b = true -> key_eq a c = key_eq b c.
Proof.
  intros Hab.
  destruct (key_eq b c) eqn:E.
  - eapply key_eq_trans; eassumption.
  - destruct (key_eq a c) eqn:E'; [ | reflexivity ].
    rewrite key_eq_sym in Hab.
    rewrite (key_eq_trans _ _ _ Hab E') in E. discriminate.
Qed.

Lemma is_nan_class (f : spec_float) : is_nan (float_class f) = is_nan f.
Proof. destruct f; reflexivity. Qed.

Lemma key_eq_isna (a b : LocationKey) :
  key_eq a b = true -> key_isna a = key_isna b.
Proof.
  intros E. apply key_eq_iff in E.
  assert (Hc : forall k, key_isna k = key_isna (key_class k)).
  { intros k. unfold key_isna, key_class. simpl. now rewrite !is_nan_class. }
  now rewrite (Hc a), (Hc b), E.
Qed.

(** ** Lists: filters, distinct keys, sorting *)

Lemma filter_filter_keep {A : Type} (p q : A -> bool) (l : list A) :
  (forall x, In x l -> p x = true -> q x = true) ->
  filter p (filter q l) = filter p l.
Proof.
  induction l as [|a l IH]; intros Hpq; simpl; [ reflexivity | ].
  assert (IH' : filter p (filter q l) = filter p l)
    by (apply IH; intros x Hx; apply Hpq; now right).
  destruct (q a) eqn:Hq; simpl.
  - now rewrite IH'.
  - destruct (p a) eqn:Hp; [ | exact IH' ].
    rewrite (Hpq a (or_introl eq_refl) Hp) in Hq. discriminate.
Qed.

Lemma filter_none {A : Type} (p : A -> bool) (l : list A) :
  (forall x, In x l -> p x = false) -> filter p l = [].
Proof.
  induction l as [|a l IH]; intros Hp; simpl; [ reflexivity | ].
  rewrite (Hp a (or_introl eq_refl)). apply IH. intros x Hx. apply Hp. now right.
Qed.

Lemma filter_perm {A : Type} (p : A -> bool) (l l' : list A) :
  Permutation l l' -> Permutation (filter p l) (filter p l').
Proof.
  induction 1 as [ | x l l' _ IH | x y l | l l' l'' _ IH1 _ IH2 ]; simpl.
  - constructor.
  - destruct (p x); [ now constructor | exact IH ].
  - destruct (p x), (p y); try apply Permutation_refl. apply perm_swap.
  - eapply Permutation_trans; eassumption.
Qed.

Lemma unique_keys_incl (ks : list LocationKey) (k : LocationKey) :
  In k (unique_keys ks) -> In k ks.
Proof.
  induction ks as [|a ks IH]; simpl; [ tauto | ].
  intros [E | Hin]; [ now left | ].
  apply filter_In in Hin. right. apply IH. tauto.
Qed.

(** Among the distinct keys, exactly one equals a key that occurs. *)
Lemma unique_keys_match (ks : list LocationKey) (k : LocationKey) :
  (exists k', In k' ks /\ key_eq k k' = true) ->
  exists k0, filter (key_eq k) (unique_keys ks) = [k0]
             /\ In k0 ks /\ key_eq k k0 = true.
Proof.
  induction ks as [|a ks IH]; intros [k' [Hin Hk]]; [ destruct Hin | ].
  simpl. destruct (key_eq k a) eqn:Ha.
  - exists a. split; [ | split; [ now left | exact Ha ] ].
    f_equal. apply filter_none. intros x Hx.
    apply filter_In in Hx. destruct Hx as [_ Hx].
    apply negb_true_iff in Hx.
    rewrite (key_eq_congr _ _ _ Ha). rewrite key_eq_sym. exact Hx.
  - destruct Hin as [E | Hin]; [ subst; congruence | ].
    destruct (IH (ex_intro _ k' (conj Hin Hk))) as [k0 [Hf [Hin0 Hk0]]].
    exists k0. split; [ | split; [ now right | exact Hk0 ] ].
    rewrite filter_filter_keep; [ exact Hf | ].
    intros x _ Hx. apply negb_true_iff.
    destruct (key_eq x a) eqn:Hxa; [ | reflexivity ].
    rewrite (key_eq_trans _ _ _ Hx Hxa) in Ha. discriminate.
Qed.

Lemma insert_key_perm (k : LocationKey) (l : list LocationKey) :
  Permutation (k :: l) (insert_key k l).
Proof.
  induction l as [|h t IH]; simpl; [ apply Permutation_refl | ].
  destruct (key_leb k h); [ apply Permutation_refl | ].
  eapply Permutation_trans; [ apply perm_swap | ].
  now apply perm_skip.
Qed.

Lemma sort_keys_perm (ks : list LocationKey) : Permutation ks (sort_keys ks).
Proof.
  unfold sort_keys.
  induction ks as [|k ks IH]; simpl; [ constructor | ].
  eapply Permutation_trans; [ apply perm_skip, IH | apply insert_key_perm ].
Qed.

Lemma group_keys_in (df : list Row) (k : LocationKey) :
  In k (group_keys df) -> key_isna k = false /\ exists r, In r df /\ loc r = k.
Proof.
  unfold group_keys. intros Hin.
  apply (Permutation_in _ (Permutation_sym (sort_keys_perm _))) in Hin.
  apply unique_keys_incl, filter_In in Hin. destruct Hin as [Hin Hna].
  apply negb_true_iff in Hna. split; [ exact Hna | ].
  apply in_map_iff in Hin. destruct Hin as [r [E Hr]]. now exists r.
Qed.

(** A key without a missing field that occurs in the frame matches exactly
    one group key. *)
Lemma group_keys_match (df : list Row) (r : Row) :
  In r df -> key_isna (loc r) = false ->
  exists k0, filter (key_eq (loc r)) (group_keys df) = [k0]
             /\ key_eq (loc r) k0 = true.
Proof.
  intros Hin Hna.
  destruct (unique_keys_match
              (filter (fun k => negb (key_isna k)) (map loc df)) (loc r))
    as [k0 [Hf [_ Hk0]]].
  { exists (loc r). split; [ | apply key_eq_refl ].
    apply filter_In. split; [ now apply in_map | now rewrite Hna ]. }
  exists k0. split; [ | exact Hk0 ].
  apply Permutation_length_1_inv. rewrite <- Hf.
  apply filter_perm, sort_keys_perm.
Qed.

(** A key with a missing field matches no group key. *)
Lemma group_keys_isna (df : list Row) (k : LocationKey) :
  key_isna k = true -> filter (key_eq k) (group_keys df) = [].
Proof.
  intros Hna. apply filter_none. intros g Hg.
  apply group_keys_in in Hg. destruct Hg as [Hg _].
  destruct (key_eq k g) eqn:E; [ | reflexivity ].
  apply key_eq_isna in E. congruence.
Qed.

(** ** The join of a frame with its own groups *)

Lemma filter_summaries {L : Library} (df : list Row) (k : LocationKey)
    (ks : list LocationKey) :
  filter (fun g => key_eq k (loc g)) (map (summarize df) ks)
  = map (summarize df) (filter (key_eq k) ks).
Proof.
  induction ks as [|a ks IH]; simpl; [ reflexivity | ].
  destruct (key_eq k a); simpl; now rewrite IH.
Qed.

Lemma members_congr (df : list Row) (a b : LocationKey) :
  key_eq a b = true -> members df b = members df a.
Proof.
  intros E. unfold members. apply filter_ext. intros r.
  rewrite (key_eq_sym (loc r) b), (key_eq_sym (loc r) a).
  symmetry. now apply key_eq_congr.
Qed.

Lemma merge_left_cons (k : Row) (left right : list Row) :
  merge_left (map loc (k :: left)) right
  = match filter (fun g => key_eq (loc k) (loc g)) right with
    | [] => [ {| issue := NaN; year := NaN; loc := loc k |} ]
    | ms => map (fun g => {| issue := issue g; year := year g; loc := loc k |}) ms
    end ++ merge_left (map loc left) right.
Proof. reflexivity. Qed.

Lemma merge_left_grouped {L : Library} (df l : list Row) :
  incl l df ->
  merge_left (map loc l) (_group_same_hosts df) = map (annotate df) l.
Proof.
  induction l as [|r l IH]; intros Hincl; [ reflexivity | ].
  rewrite merge_left_cons, IH by (intros x Hx; apply Hincl; now right).
  unfold _group_same_hosts. rewrite filter_summaries.
  cbn [map]. unfold annotate at 2.
  destruct (key_isna (loc r)) eqn:Hna.
  - now rewrite group_keys_isna.
  - destruct (group_keys_match df r (Hincl r (or_introl eq_refl)) Hna)
      as [k0 [Hf Hk0]].
    rewrite Hf. cbn [map app]. unfold summarize. cbn [issue year].
    now rewrite (members_congr df _ _ Hk0).
Qed.

(** The joined frame, row by row. *)
Lemma join_grouped {L : Library} (df : list Row) :
  _join_ejcs_grouped df (_group_same_hosts df) = map (annotate df) df.
Proof.
  unfold _join_ejcs_grouped, filter_key_columns.
  apply merge_left_grouped, incl_refl.
Qed.

Lemma annotate_loc {L : Library} (df : list Row) (r : Row) :
  loc (annotate df r) = loc r.
Proof. unfold annotate. now destruct (key_isna (loc r)). Qed.

(** ** Cycling a palette *)

Lemma length_list_copies {A : Type} (l : list A) (q : nat) :
  List.length (List.concat (repeat l q)) = (q * List.length l)%nat.
Proof.
  induction q as [|q IH]; simpl; [ reflexivity | ].
  now rewrite length_app, IH.
Qed.

(** [q] copies of [l] and then the first [r] elements of [l] read, at every
    position, the element of [l] at that position modulo the length. *)
Lemma nth_error_cycle {A : Type} (l : list A) (q r i : nat) :
  (r < List.length l)%nat ->
  (i < q * List.length l + r)%nat ->
  nth_error (List.concat (repeat l q) ++ firstn r l) i
  = nth_error l (i mod List.length l).
Proof.
  intros Hr. revert i.
  induction q as [|q IH]; intros i Hi; simpl in *.
  - rewrite nth_error_firstn.
    destruct (Nat.ltb_spec i r); [ | lia ].
    now rewrite Nat.mod_small by lia.
  - rewrite <- app_assoc.
    destruct (Nat.lt_ge_cases i (List.length l)) as [Hlt | Hge].
    + rewrite nth_error_app1 by exact Hlt.
      now rewrite Nat.mod_small by exact Hlt.
    + rewrite nth_error_app2 by exact Hge.
      rewrite IH by lia.
      replace i with ((i - List.length l) + 1 * List.length l)%nat at 2 by lia.
      now rewrite Nat.Div0.mod_add.
Qed.

Lemma extend_colors_ok {A : Type} (colors : list A) (n : Z) :
  colors <> [] ->
  _extend_colors colors n
  = Ok (list_mul (n / Z.of_nat (List.length colors)) colors
        ++ slice_to colors (n mod Z.of_nat (List.length colors))).
Proof.
  intros Hne. unfold _extend_colors, divmod.
  destruct (Z.eqb_spec (Z.of_nat (List.length colors)) 0) as [E | _];
    [ | reflexivity ].
  destruct colors; [ congruence | simpl in E; lia ].
Qed.

(** The result of cycling, for a palette with at least one colour and a
    count that is not negative. *)
Lemma extend_colors_spec {A : Type} (colors : list A) (n : nat) :
  colors <> [] ->
  exists out,
    _extend_colors colors (Z.of_nat n) = Ok out
    /\ out = List.concat (repeat colors (n / List.length colors))
             ++ firstn (n mod List.length colors) colors
    /\ List.length out = n
    /\ forall i, (i < n)%nat ->
         nth_error out i = nth_error colors (i mod List.length colors).
Proof.
  intros Hne.
  assert (Hlen : (0 < List.length colors)%nat)
    by (destruct colors; [ congruence | simpl; lia ]).
  pose proof (Nat.mod_upper_bound n (List.length colors)) as Hr.
  pose proof (Nat.div_mod_eq n (List.length colors)) as Hqr.
  eexists. split; [ apply extend_colors_ok; exact Hne | ].
  assert (Hout : list_mul (Z.of_nat n / Z.of_nat (List.length colors)) colors
                 ++ slice_to colors (Z.of_nat n mod Z.of_nat (List.length colors))
                 = List.concat (repeat colors (n / List.length colors))
                   ++ firstn (n mod List.length colors) colors).
  { unfold list_mul, slice_to.
    rewrite <- Nat2Z.inj_div, <- Nat2Z.inj_mod, !Nat2Z.id.
    destruct (Z.ltb_spec (Z.of_nat (n mod List.length colors)) 0); [ lia | ].
    reflexivity. }
  rewrite Hout. split; [ reflexivity | ]. split.
  - rewrite length_app, length_list_copies, length_firstn. lia.
  - intros i Hi. apply nth_error_cycle; lia.
Qed.

(** ** Running the prepare step *)

Lemma read_csv_run {L : Library} (filename sep : string) (w : World) :
  read_csv filename sep w
  = (match lookup filename (files w) with
     | Some text => csv_parse sep text
     | None => Raise FileNotFoundError
     end, w).
Proof.
  unfold read_csv, bind, read_text, lift.
  now destruct (lookup filename (files w)).
Qed.

(** From "the dataset file loads as [df]" to what the parser returned. *)
Ltac loaded H := rewrite read_csv_run in H; injection H as H.

(** The prepare step reads one file and leaves the world as it found it. *)
Lemma prepare_ejcs_run {L : Library} {C : Type} (filename : string)
    (colors : list C) (w : World) :
  prepare_ejcs filename colors w
  = (result_bind
       (match lookup filename (files w) with
        | Some text => csv_parse ";" text
        | None => Raise FileNotFoundError
        end)
       (fun df =>
          result_bind (_extend_colors colors (Z.of_nat (List.length df)))
            (assign_color (_join_ejcs_grouped df (_group_same_hosts df)))),
     w).
Proof.
  unfold prepare_ejcs, bind. rewrite read_csv_run.
  destruct (match lookup filename (files w) with
            | Some text => csv_parse ";" text
            | None => Raise FileNotFoundError
            end) as [df | e]; simpl; [ | reflexivity ].
  unfold lift.
  now destruct (_extend_colors colors (Z.of_nat (List.length df))).
Qed.

Lemma nth_error_annotated {C : Type} (rows : list Row) (values : list C)
    (i : nat) (r : Row) (c : C) :
  nth_error rows i = Some r -> nth_error values i = Some c ->
  nth_error (map (fun p => mkAnnotated (fst p) (snd p)) (combine rows values)) i
  = Some (mkAnnotated r c).
Proof.
  revert values i.
  induction rows as [|r0 rows IH]; intros [|c0 values] [|i]; simpl;
    try discriminate.
  - congruence.
  - apply IH.
Qed.

(** With the dataset loaded as [df] and a palette that is not empty, the
    prepare step returns, at every position, the joined row of the raw row
    there and the palette colour of that position. *)
Lemma prepare_ejcs_rows {L : Library} {C : Type} (filename : string)
    (colors : list C) (w : World) (df : list Row) :
  read_csv filename ";" w = (Ok df, w) ->
  colors <> [] ->
  exists out,
    prepare_ejcs filename colors w = (Ok out, w)
    /\ List.length out = List.length df
    /\ forall i r, nth_error df i = Some r ->
         exists c, nth_error colors (i mod List.length colors) = Some c
                   /\ nth_error out i = Some (mkAnnotated (annotate df r) c).
Proof.
  intros Hread Hne.
  loaded Hread.
  destruct (extend_colors_spec colors (List.length df) Hne)
    as [ext [Hext [_ [Hlen Hnth]]]].
  rewrite prepare_ejcs_run, Hread. simpl. rewrite Hext. simpl.
  rewrite join_grouped. unfold assign_color.
  rewrite length_map, Hlen, Nat.eqb_refl.
  eexists. split; [ reflexivity | ]. split.
  - rewrite length_map, length_combine, length_map, Hlen. apply Nat.min_id.
  - intros i r Hr.
    assert (Hi : (i < List.length df)%nat)
      by (apply nth_error_Some; congruence).
    destruct (nth_error ext i) as [c|] eqn:Hc;
      [ | apply nth_error_None in Hc; lia ].
    exists c. split; [ now rewrite <- Hnth | ].
    apply nth_error_annotated; [ | exact Hc ].
    rewrite nth_error_map, Hr. reflexivity.
Qed.

Lemma group_keys_at_most_one (df : list Row) (k : LocationKey) :
  (List.length (filter (key_eq k) (group_keys df)) <= 1)%nat.
Proof.
  unfold group_keys.
  set (ks := filter (fun k => negb (key_isna k)) (map loc df)).
  rewrite <- (Permutation_length (filter_perm (key_eq k) _ _ (sort_keys_perm _))).
  destruct (filter (key_eq k) ks) as [|k' rest] eqn:Hf.
  - rewrite filter_none; [ simpl; lia | ].
    intros x Hx. apply unique_keys_incl in Hx.
    destruct (key_eq k x) eqn:E; [ | reflexivity ].
    assert (Hin : In x (filter (key_eq k) ks)) by (apply filter_In; tauto).
    rewrite Hf in Hin. destruct Hin.
  - assert (Hin : In k' (filter (key_eq k) ks)) by (rewrite Hf; now left).
    apply filter_In in Hin.
    destruct (unique_keys_match ks k (ex_intro _ k' Hin)) as [k0 [Hk0 _]].
    rewrite Hk0. simpl. lia.
Qed.

(** ** The claims *)

(** C1: the joiner applied to a dataset and its own groups returns as many
    rows as the dataset has, in the dataset's order: row by row it is the
    joined row of the raw row at that position, with that row's key; and
    the grouped side has at most one row for any key, so that no row is
    repeated. *)
Theorem join_preserves_rows {L : Library} (df : list Row) :
  List.length (_join_ejcs_grouped df (_group_same_hosts df)) = List.length df
  /\ map loc (_join_ejcs_grouped df (_group_same_hosts df)) = map loc df
  /\ _join_ejcs_grouped df (_group_same_hosts df) = map (annotate df) df
  /\ forall k,
       (List.length (filter (fun g => key_eq k (loc g)) (_group_same_hosts df))
        <= 1)%nat.
Proof.
  rewrite join_grouped. repeat split.
  - apply length_map.
  - rewrite map_map. apply map_ext. intros r. apply annotate_loc.
  - intros k. unfold _group_same_hosts.
    rewrite filter_summaries, length_map. apply group_keys_at_most_one.
Qed.

(** C2: for a palette that is not empty and a count [n >= 0], the cycler
    returns exactly [n] colours, the one at position [i] being the palette's
    colour at [i mod len(palette)]: [n div len] full copies of the palette,
    then its first [n mod len] colours. *)
Theorem extend_colors_cycles {A : Type} (palette : list A) (n : Z) :
  palette <> [] ->
  (0 <= n)%Z ->
  exists out,
    _extend_colors palette n = Ok out
    /\ Z.of_nat (List.length out) = n
    /\ (forall i, (i < List.length out)%nat ->
          nth_error out i = nth_error palette (i mod List.length palette))
    /\ out = List.concat
               (repeat palette (Z.to_nat (n / Z.of_nat (List.length palette))))
             ++ firstn (Z.to_nat (n mod Z.of_nat (List.length palette))) palette.
Proof.
  intros Hne Hn.
  destruct (extend_colors_spec palette (Z.to_nat n) Hne)
    as [out [Hout [Hshape [Hlen Hnth]]]].
  rewrite Z2Nat.id in Hout by exact Hn.
  exists out. split; [ exact Hout | ]. split; [ lia | ]. split.
  - intros i Hi. apply Hnth. lia.
  - rewrite Hshape. f_equal.
    + f_equal. f_equal.
      rewrite <- (Z2Nat.id n) at 2 by exact Hn.
      now rewrite <- Nat2Z.inj_div, Nat2Z.id.
    + f_equal.
      rewrite <- (Z2Nat.id n) at 2 by exact Hn.
      now rewrite <- Nat2Z.inj_mod, Nat2Z.id.
Qed.

(** The scenario of C2: the palette red, green cycled to length 5. *)
Lemma extend_colors_cycles_witness :
  ["red"; "green"] <> []
  /\ (0 <= 5)%Z
  /\ _extend_colors ["red"; "green"] 5
     = Ok ["red"; "green"; "red"; "green"; "red"].
Proof.
  assert (Hne : ["red"; "green"] <> []) by discriminate.
  assert (Hn : (0 <= 5)%Z) by lia.
  split; [ exact Hne | ]. split; [ exact Hn | ].
  destruct (extend_colors_cycles ["red"; "green"] 5 Hne Hn)
    as [out [Hout [_ [_ Hshape]]]].
  rewrite Hout, Hshape. reflexivity.
Defined.

(** C3, as the code has it: with the dataset loaded and a palette that is
    not empty, the prepared row at every position carries the key fields of
    the raw row there, in its [issue] and [year] columns the concatenated
    labels of the summary at that key (NaN when the key has a missing
    field, for then it has no summary), and the colour of its position.
    The raw row's own [issue] and [year] are not in it. *)
Theorem prepared_row_contents {L : Library} {C : Type} (filename : string)
    (colors : list C) (w : World) (df : list Row) :
  read_csv filename ";" w = (Ok df, w) ->
  colors <> [] ->
  exists out,
    prepare_ejcs filename colors w = (Ok out, w)
    /\ forall i r, nth_error df i = Some r ->
         exists a,
           nth_error out i = Some a
           /\ loc (row a) = loc r
           /\ (key_isna (loc r) = false ->
               issue (row a) = Str (join_labels (map issue (members df (loc r))))
               /\ year (row a) = Str (join_labels (map year (members df (loc r)))))
           /\ (key_isna (loc r) = true ->
               issue (row a) = NaN /\ year (row a) = NaN)
           /\ nth_error colors (i mod List.length colors) = Some (color a).
Proof.
  intros Hread Hne.
  destruct (prepare_ejcs_rows filename colors w df Hread Hne)
    as [out [Hrun [_ Hrows]]].
  exists out. split; [ exact Hrun | ].
  intros i r Hr. destruct (Hrows i r Hr) as [c [Hc Ha]].
  exists (mkAnnotated (annotate df r) c).
  split; [ exact Ha | ]. cbn [row color]. unfold annotate.
  destruct (key_isna (loc r)); cbn [issue year loc];
    repeat split; try discriminate; try reflexivity; exact Hc.
Qed.

Lemma prepared_row_contents_witness :
  read_csv (L := sample_library) filename_ejcs ";" world_paris
  = (Ok df_paris, world_paris)
  /\ ["red"] <> []
  /\ exists out,
       prepare_ejcs (L := sample_library) filename_ejcs ["red"] world_paris
       = (Ok out, world_paris)
       /\ exists a,
            nth_error out 1 = Some a
            /\ loc (row a) = paris
            /\ issue (row a) = Str "1 | 2"
            /\ year (row a) = Str "1990 | 1995"
            /\ color a = "red".
Proof.
  assert (Hread : read_csv (L := sample_library) filename_ejcs ";" world_paris
                  = (Ok df_paris, world_paris)) by reflexivity.
  assert (Hne : ["red"] <> []) by discriminate.
  split; [ exact Hread | ]. split; [ exact Hne | ].
  destruct (prepared_row_contents (L := sample_library)
              filename_ejcs ["red"] world_paris df_paris Hread Hne)
    as [out [Hrun Hrows]].
  exists out. split; [ exact Hrun | ].
  destruct (Hrows 1%nat {| issue := Int 2; year := Int 1995; loc := paris |}
              eq_refl)
    as [a [Ha [Hloc [Hlabels [_ Hcolor]]]]].
  exists a. split; [ exact Ha | ]. split; [ exact Hloc | ].
  destruct (Hlabels eq_refl) as [Hi Hy].
  split; [ exact Hi | ]. split; [ exact Hy | ].
  simpl in Hcolor. congruence.
Defined.

(** C3 as stated fails: on the two Paris rows and a palette of one colour,
    the two prepared rows are the same row although the raw rows differ in
    [issue] and [year], so nothing read from a prepared row gives back the
    raw row's own fields. *)
Lemma own_fields_not_kept :
  exists out,
    prepare_ejcs (L := sample_library) filename_ejcs ["red"] world_paris
    = (Ok out, world_paris)
    /\ ~ keeps_own_fields df_paris out.
Proof.
  eexists. split; [ reflexivity | ].
  intros [own Hown].
  pose proof (Hown 0%nat _ _ eq_refl eq_refl) as H0.
  pose proof (Hown 1%nat _ _ eq_refl eq_refl) as H1.
  cbv in H0, H1. rewrite H0 in H1. discriminate.
Qed.

(** C4, as the code has it: every row whose key has no missing field has
    exactly one summary at its key (keys compared field by field, exactly),
    and that summary's [issue] and [year] are the string forms of the
    labels of the rows at that key, in the order of the frame, joined with
    [" | "]; every summary is at the key of some row, a key with no missing
    field.  On the two Paris rows there is one summary, with ["1 | 2"] and
    ["1990 | 1995"], and both joined rows carry these strings. *)
Theorem group_one_summary_per_complete_key {L : Library} :
  (forall df r,
      In r df -> key_isna (loc r) = false ->
      exists g,
        filter (fun g => key_eq (loc r) (loc g)) (_group_same_hosts df) = [g]
        /\ issue g
           = Str (String.concat " | " (map str (map issue (members df (loc r)))))
        /\ year g
           = Str (String.concat " | " (map str (map year (members df (loc r))))))
  /\ (forall df g,
         In g (_group_same_hosts df) ->
         key_isna (loc g) = false /\ exists r, In r df /\ loc r = loc g)
  /\ _group_same_hosts df_paris
     = [ {| issue := Str "1 | 2"; year := Str "1990 | 1995"; loc := paris |} ]
  /\ _join_ejcs_grouped df_paris (_group_same_hosts df_paris)
     = [ {| issue := Str "1 | 2"; year := Str "1990 | 1995"; loc := paris |};
         {| issue := Str "1 | 2"; year := Str "1990 | 1995"; loc := paris |} ].
Proof.
  split; [ | split; [ | split; reflexivity ] ].
  - intros df r Hin Hna.
    destruct (group_keys_match df r Hin Hna) as [k0 [Hf Hk0]].
    exists (summarize df k0). unfold _group_same_hosts.
    rewrite filter_summaries, Hf. split; [ reflexivity | ].
    unfold summarize. cbn [issue year].
    now rewrite (members_congr df _ _ Hk0).
  - intros df g Hg. unfold _group_same_hosts in Hg.
    apply in_map_iff in Hg. destruct Hg as [k [<- Hk]].
    apply group_keys_in in Hk. exact Hk.
Qed.

Lemma group_one_summary_per_complete_key_witness :
  In row_berlin (df_paris ++ [row_berlin])
  /\ key_isna (loc row_berlin) = false
  /\ exists g,
       filter (fun g => key_eq berlin (loc g))
         (_group_same_hosts (L := sample_library) (df_paris ++ [row_berlin]))
       = [g]
       /\ issue g = Str "3" /\ year g = Str "2000".
Proof.
  assert (Hin : In row_berlin (df_paris ++ [row_berlin]))
    by (simpl; tauto).
  assert (Hna : key_isna (loc row_berlin) = false) by reflexivity.
  split; [ exact Hin | ]. split; [ exact Hna | ].
  destruct (proj1 (group_one_summary_per_complete_key (L := sample_library))
              (df_paris ++ [row_berlin]) row_berlin Hin Hna)
    as [g [Hg [Hi Hy]]].
  exists g. split; [ exact Hg | ]. split; [ exact Hi | exact Hy ].
Defined.

(** C4 as stated fails: a dataset of one row whose latitude is missing has
    a key and no summary, for [groupby] leaves out the rows with a missing
    key field. *)
Lemma missing_key_has_no_summary :
  _group_same_hosts (L := sample_library) [row_no_latitude] = []
  /\ ~ one_summary_per_key (L := sample_library) [row_no_latitude].
Proof.
  split; [ reflexivity | ].
  intros Hclaim.
  destruct (Hclaim row_no_latitude (or_introl eq_refl)) as [g [Hg _]].
  discriminate Hg.
Qed.

(** C5: with the dataset loaded and a palette that is not empty, the
    prepare step returns one record per raw record, and the record at
    position [i] is the one of raw record [i] with the colour
    [palette[i mod len(palette)]]. *)
Theorem prepare_colors_by_position {L : Library} {C : Type} (filename : string)
    (palette : list C) (w : World) (df : list Row) :
  read_csv filename ";" w = (Ok df, w) ->
  palette <> [] ->
  exists out,
    prepare_ejcs filename palette w = (Ok out, w)
    /\ List.length out = List.length df
    /\ forall i r, nth_error df i = Some r ->
         exists a,
           nth_error out i = Some a
           /\ row a = annotate df r
           /\ nth_error palette (i mod List.length palette) = Some (color a).
Proof.
  intros Hread Hne.
  destruct (prepare_ejcs_rows filename palette w df Hread Hne)
    as [out [Hrun [Hlen Hrows]]].
  exists out. split; [ exact Hrun | ]. split; [ exact Hlen | ].
  intros i r Hr. destruct (Hrows i r Hr) as [c [Hc Ha]].
  exists (mkAnnotated (annotate df r) c). repeat split; assumption.
Qed.

(** Two rows and one colour: the second row gets the first colour again. *)
Lemma prepare_colors_by_position_witness :
  read_csv (L := sample_library) filename_ejcs ";" world_paris
  = (Ok df_paris, world_paris)
  /\ ["red"] <> []
  /\ exists out,
       prepare_ejcs (L := sample_library) filename_ejcs ["red"] world_paris
       = (Ok out, world_paris)
       /\ map color out = ["red"; "red"].
Proof.
  assert (Hread : read_csv (L := sample_library) filename_ejcs ";" world_paris
                  = (Ok df_paris, world_paris)) by reflexivity.
  assert (Hne : ["red"] <> []) by discriminate.
  split; [ exact Hread | ]. split; [ exact Hne | ].
  destruct (prepare_colors_by_position (L := sample_library)
              filename_ejcs ["red"] world_paris df_paris Hread Hne)
    as [out [Hrun [Hlen Hrows]]].
  exists out. split; [ exact Hrun | ].
  destruct (Hrows 0%nat _ eq_refl) as [a0 [Ha0 [_ Hc0]]].
  destruct (Hrows 1%nat _ eq_refl) as [a1 [Ha1 [_ Hc1]]].
  destruct out as [|x0 [|x1 [|x2 out]]]; try discriminate Hlen.
  simpl in *. congruence.
Defined.

(** ** [main] *)

Lemma read_colors_missing {L : Library} (filename : string) (w : World) :
  lookup filename (files w) = None ->
  _read_colors filename w = (Raise FileNotFoundError, w).
Proof.
  intros Hmiss. unfold _read_colors, bind, read_text. now rewrite Hmiss.
Qed.

Lemma extend_colors_empty {C : Type} (n : Z) :
  _extend_colors (@nil C) n = Raise ZeroDivisionError.
Proof. reflexivity. Qed.

Lemma main_run {L : Library} (w : World) (colors : list json) :
  _read_colors filename_colors w = (Ok colors, w) ->
  main w
  = match prepare_ejcs filename_ejcs colors w with
    | (Ok df_ejcs, w') =>
        create_output (create_map df_ejcs) width_px height_px "output" true true w'
    | (Raise e, w') => (Raise e, w')
    end.
Proof.
  intros Hcolors. unfold main, bind at 1. now rewrite Hcolors.
Qed.

(** C6: on an empty palette the cycler raises [ZeroDivisionError] for every
    count and returns nothing; so does the prepare step once the dataset is
    loaded; and [main], having read an empty palette, ends in that error
    with the world as it was: nothing shown, nothing written. *)
Theorem empty_palette_fails {L : Library} :
  (forall (C : Type) (n : Z),
      _extend_colors (@nil C) n = Raise ZeroDivisionError)
  /\ (forall (C : Type) filename w df,
         read_csv filename ";" w = (Ok df, w) ->
         prepare_ejcs filename (@nil C) w = (Raise ZeroDivisionError, w))
  /\ (forall w df,
         _read_colors filename_colors w = (Ok [], w) ->
         read_csv filename_ejcs ";" w = (Ok df, w) ->
         main w = (Raise ZeroDivisionError, w)).
Proof.
  assert (Hprep : forall (C : Type) filename w df,
             read_csv filename ";" w = (Ok df, w) ->
             prepare_ejcs filename (@nil C) w = (Raise ZeroDivisionError, w)).
  { intros C filename w df Hread.
    loaded Hread.
    rewrite prepare_ejcs_run, Hread. reflexivity. }
  split; [ intros C n; apply extend_colors_empty | ].
  split; [ exact Hprep | ].
  intros w df Hcolors Hread.
  rewrite (main_run w [] Hcolors), (Hprep json _ _ _ Hread). reflexivity.
Qed.

Lemma empty_palette_fails_witness :
  _read_colors (L := sample_library) filename_colors world_paris
  = (Ok [], world_paris)
  /\ read_csv (L := sample_library) filename_ejcs ";" world_paris
     = (Ok df_paris, world_paris)
  /\ main (L := sample_library) world_paris
     = (Raise ZeroDivisionError, world_paris).
Proof.
  split; [ reflexivity | ]. split; [ reflexivity | ].
  apply (proj2 (proj2 (empty_palette_fails (L := sample_library)))
           world_paris df_paris); reflexivity.
Defined.




(** C8: when the palette file is missing, [main] ends in
    [FileNotFoundError] and the world is the one it started in: no file
    was written and no figure shown, whatever the later steps would do. *)
Theorem missing_palette_aborts_before_output {L : Library} (w : World) :
  lookup filename_colors (files w) = None ->
  main w = (Raise FileNotFoundError, w).
Proof.
  intros Hmiss. unfold main, bind at 1.
  now rewrite (read_colors_missing _ _ Hmiss).
Qed.

Lemma missing_palette_aborts_before_output_witness :
  lookup filename_colors (files world_empty_dataset) = None
  /\ main (L := sample_library) world_empty_dataset
     = (Raise FileNotFoundError, world_empty_dataset).
Proof.
  split; [ reflexivity | ].
  apply (missing_palette_aborts_before_output (L := sample_library)).
  reflexivity.
Defined.

(** C9: the prepare step leaves the world as it found it, and its result
    depends on the palette and on the text of the dataset file only: two
    runs with the same palette, in worlds where that file reads the same,
    return the same result. *)
Theorem prepare_deterministic {L : Library} {C : Type} (filename : string)
    (colors : list C) :
  (forall w, snd (prepare_ejcs filename colors w) = w)
  /\ (forall w1 w2,
         lookup filename (files w1) = lookup filename (files w2) ->
         fst (prepare_ejcs filename colors w1)
         = fst (prepare_ejcs filename colors w2))
  /\ (forall w,
         fst (prepare_ejcs filename colors (snd (prepare_ejcs filename colors w)))
         = fst (prepare_ejcs filename colors w)).
Proof.
  split; [ | split ].
  - intros w. now rewrite prepare_ejcs_run.
  - intros w1 w2 Hsame. rewrite !prepare_ejcs_run. simpl. now rewrite Hsame.
  - intros w. now rewrite !prepare_ejcs_run.
Qed.

Lemma prepare_deterministic_witness :
  lookup filename_ejcs (files world_paris)
  = lookup filename_ejcs (files world_paris_shown)
  /\ fst (prepare_ejcs (L := sample_library) filename_ejcs ["red"; "green"]
            world_paris)
     = fst (prepare_ejcs (L := sample_library) filename_ejcs ["red"; "green"]
              world_paris_shown).
Proof.
  split; [ reflexivity | ].
  apply (proj1 (proj2 (prepare_deterministic (L := sample_library)
                         filename_ejcs ["red"; "green"]))).
  reflexivity.
Defined.

(** C10: on a dataset without records and a palette that is not empty, the
    prepare step returns the empty sequence: no summaries, no joined rows,
    no colours. *)
Theorem prepare_empty_dataset {L : Library} {C : Type} (filename : string)
    (palette : list C) (w : World) :
  read_csv filename ";" w = (Ok [], w) ->
  palette <> [] ->
  prepare_ejcs filename palette w = (Ok [], w)
  /\ _group_same_hosts [] = []
  /\ _join_ejcs_grouped [] (_group_same_hosts []) = []
  /\ _extend_colors palette 0 = Ok [].
Proof.
  intros Hread Hne.
  assert (Hext : _extend_colors palette 0 = Ok []).
  { rewrite (extend_colors_ok palette 0 Hne).
    rewrite Z.div_0_l, Z.mod_0_l
      by (destruct palette; [ congruence | simpl; lia ]).
    reflexivity. }
  loaded Hread.
  rewrite prepare_ejcs_run, Hread. simpl. rewrite Hext.
  repeat split; reflexivity.
Qed.

Lemma prepare_empty_dataset_witness :
  read_csv (L := sample_library) filename_ejcs ";" world_empty_dataset
  = (Ok [], world_empty_dataset)
  /\ ["red"; "green"] <> []
  /\ prepare_ejcs (L := sample_library) filename_ejcs ["red"; "green"]
       world_empty_dataset
     = (Ok [], world_empty_dataset).
Proof.
  assert (Hne : ["red"; "green"] <> []) by discriminate.
  split; [ reflexivity | ]. split; [ exact Hne | ].
  apply (prepare_empty_dataset (L := sample_library)); [ reflexivity | exact Hne ].
Defined.

(** * Further properties of the code *)

(** ** [_extend_colors] beyond the counts the pipeline passes *)

(** X1: a negative count is not refused: with a palette that is not empty,
    the floor division gives no full copy and the remainder, which is not
    negative, cuts a prefix of the palette, shorter than the palette. *)
Theorem extend_colors_negative {A : Type} (palette : list A) (n : Z) :
  palette <> [] ->
  (n < 0)%Z ->
  _extend_colors palette n
  = Ok (firstn (Z.to_nat (n mod Z.of_nat (List.length palette))) palette)
  /\ (Z.to_nat (n mod Z.of_nat (List.length palette)) < List.length palette)%nat.
Proof.
  intros Hne Hn.
  assert (Hlen : (0 < Z.of_nat (List.length palette))%Z)
    by (destruct palette; [ congruence | simpl; lia ]).
  pose proof (Z.mod_pos_bound n _ Hlen) as Hr.
  split; [ | lia ].
  rewrite (extend_colors_ok palette n Hne). unfold list_mul, slice_to.
  replace (Z.to_nat (n / Z.of_nat (List.length palette))) with 0%nat.
  - destruct (Z.ltb_spec (n mod Z.of_nat (List.length palette)) 0); [ lia | ].
    reflexivity.
  - pose proof (Z.div_lt_upper_bound n _ 0 Hlen) as Hq. lia.
Qed.

Lemma extend_colors_negative_witness :
  ["a"; "b"; "c"] <> []
  /\ (-1 < 0)%Z
  /\ _extend_colors ["a"; "b"; "c"] (-1) = Ok ["a"; "b"].
Proof.
  assert (Hne : ["a"; "b"; "c"] <> []) by discriminate.
  assert (Hn : (-1 < 0)%Z) by lia.
  split; [ exact Hne | ]. split; [ exact Hn | ].
  rewrite (proj1 (extend_colors_negative ["a"; "b"; "c"] (-1) Hne Hn)).
  reflexivity.
Defined.

(** X2: the cycled sequences are prefixes of one another: for counts
    [m <= n] the result for [m] is the first [m] colours of the result for
    [n]; and a count up to the length of the palette only cuts the
    palette. *)
Theorem extend_colors_prefix {A : Type} (palette : list A) (m n : nat) :
  palette <> [] ->
  (m <= n)%nat ->
  exists out_m out_n,
    _extend_colors palette (Z.of_nat m) = Ok out_m
    /\ _extend_colors palette (Z.of_nat n) = Ok out_n
    /\ out_m = firstn m out_n
    /\ ((n <= List.length palette)%nat -> out_n = firstn n palette).
Proof.
  intros Hne Hmn.
  destruct (extend_colors_spec palette m Hne) as [om [Hom [_ [Hlm Hnm]]]].
  destruct (extend_colors_spec palette n Hne) as [on [Hon [_ [Hln Hnn]]]].
  exists om, on. split; [ exact Hom | ]. split; [ exact Hon | ].
  assert (Hcut : forall k (l : list A),
             List.length l = k ->
             (forall i, (i < k)%nat ->
                nth_error l i = nth_error palette (i mod List.length palette)) ->
             forall l', (k <= List.length l')%nat ->
             (forall i, (i < k)%nat ->
                nth_error l' i = nth_error palette (i mod List.length palette)) ->
             l = firstn k l').
  { intros k l Hl Hnl l' Hl' Hnl'. apply nth_error_ext. intros i.
    rewrite nth_error_firstn.
    destruct (Nat.ltb_spec i k) as [Hi | Hi].
    - now rewrite Hnl, Hnl'.
    - apply nth_error_None. lia. }
  split.
  - apply (Hcut m om Hlm Hnm on); [ lia | ].
    intros i Hi. apply Hnn. lia.
  - intros Hn. apply (Hcut n on Hln Hnn palette Hn).
    intros i Hi. now rewrite Nat.mod_small by lia.
Qed.

Lemma extend_colors_prefix_witness :
  ["red"; "green"; "blue"] <> []
  /\ (2 <= 5)%nat
  /\ exists out_m out_n,
       _extend_colors ["red"; "green"; "blue"] 2 = Ok out_m
       /\ _extend_colors ["red"; "green"; "blue"] 5 = Ok out_n
       /\ out_m = firstn 2 out_n.
Proof.
  assert (Hne : ["red"; "green"; "blue"] <> []) by discriminate.
  assert (Hmn : (2 <= 5)%nat) by lia.
  split; [ exact Hne | ]. split; [ exact Hmn | ].
  destruct (extend_colors_prefix ["red"; "green"; "blue"] 2 5 Hne Hmn)
    as [om [on [Hom [Hon [Hpre _]]]]].
  exists om, on. repeat split; assumption.
Defined.

(** X3: the cycler invents no colour and, from a count of the palette's
    length on, leaves none out: every colour of the result is one of the
    palette, and then every colour of the palette is in the result. *)
Theorem extend_colors_members {A : Type} (palette : list A) (n : nat) :
  palette <> [] ->
  exists out,
    _extend_colors palette (Z.of_nat n) = Ok out
    /\ (forall c, In c out -> In c palette)
    /\ ((List.length palette <= n)%nat -> forall c, In c palette -> In c out).
Proof.
  intros Hne.
  destruct (extend_colors_spec palette n Hne) as [out [Hout [_ [Hlen Hnth]]]].
  exists out. split; [ exact Hout | ]. split.
  - intros c Hc. apply In_nth_error in Hc. destruct Hc as [i Hi].
    assert (Hlt : (i < n)%nat) by (rewrite <- Hlen; apply nth_error_Some; congruence).
    rewrite (Hnth i Hlt) in Hi. eapply nth_error_In. exact Hi.
  - intros Hn c Hc. apply In_nth_error in Hc. destruct Hc as [i Hi].
    assert (Hlt : (i < List.length palette)%nat)
      by (apply nth_error_Some; congruence).
    apply (nth_error_In out i).
    rewrite Hnth by lia. now rewrite Nat.mod_small by exact Hlt.
Qed.

Lemma extend_colors_members_witness :
  ["red"; "green"] <> []
  /\ exists out,
       _extend_colors ["red"; "green"] 3 = Ok out
       /\ (forall c, In c out -> In c ["red"; "green"])
       /\ In "green" out.
Proof.
  assert (Hne : ["red"; "green"] <> []) by discriminate.
  split; [ exact Hne | ].
  destruct (extend_colors_members ["red"; "green"] 3 Hne)
    as [out [Hout [Hsound Hfull]]].
  exists out. split; [ exact Hout | ]. split; [ exact Hsound | ].
  apply Hfull; simpl; [ lia | tauto ].
Defined.

(** ** [_group_same_hosts]: the groups as a whole *)

Lemma distinct_keys_filter (p : LocationKey -> bool) (ks : list LocationKey) :
  distinct_keys ks -> distinct_keys (filter p ks).
Proof.
  induction ks as [|k ks IH]; simpl; [ tauto | ].
  intros [Hk Hrest]. destruct (p k); simpl.
  - split; [ | now apply IH ].
    intros k' Hk'. apply filter_In in Hk'. apply Hk. tauto.
  - now apply IH.
Qed.

Lemma distinct_unique_keys (ks : list LocationKey) :
  distinct_keys (unique_keys ks).
Proof.
  induction ks as [|k ks IH]; simpl; [ exact I | ]. split.
  - intros k' Hk'. apply filter_In in Hk'. destruct Hk' as [_ Hk'].
    now apply negb_true_iff in Hk'.
  - now apply distinct_keys_filter.
Qed.

Lemma filter_or_perm {A : Type} (p q : A -> bool) (l : list A) :
  (forall x, In x l -> p x = true -> q x = true -> False) ->
  Permutation (filter (fun x => p x || q x) l) (filter p l ++ filter q l).
Proof.
  induction l as [|a l IH]; intros Hdis; simpl; [ constructor | ].
  assert (IH' : Permutation (filter (fun x => p x || q x) l)
                  (filter p l ++ filter q l))
    by (apply IH; intros x Hx; apply Hdis; now right).
  destruct (p a) eqn:Hp, (q a) eqn:Hq; simpl.
  - destruct (Hdis a (or_introl eq_refl) Hp Hq).
  - now apply perm_skip.
  - now apply Permutation_cons_app.
  - exact IH'.
Qed.

(** The groups of pairwise distinct keys are, together, the rows at one of
    the keys. *)
Lemma members_of_distinct (l : list Row) (ks : list LocationKey) :
  distinct_keys ks ->
  Permutation (flat_map (members l) ks)
    (filter (fun r => existsb (key_eq (loc r)) ks) l).
Proof.
  induction ks as [|k ks IH]; simpl.
  - intros _. rewrite filter_none; [ constructor | reflexivity ].
  - intros [Hk Hrest].
    eapply Permutation_trans;
      [ apply Permutation_app_head, IH, Hrest | ].
    apply Permutation_sym.
    apply (filter_or_perm (fun r => key_eq (loc r) k)
             (fun r => existsb (key_eq (loc r)) ks)).
    intros r _ Hrk Hex. apply existsb_exists in Hex.
    destruct Hex as [k' [Hin Hrk']].
    rewrite key_eq_sym in Hrk'.
    pose proof (Hk k' Hin) as Hne.
    rewrite (key_eq_trans _ _ _ Hrk' Hrk) in Hne. discriminate.
Qed.

Lemma group_keys_cover (df : list Row) (r : Row) :
  In r df ->
  existsb (key_eq (loc r))
    (unique_keys (filter (fun k => negb (key_isna k)) (map loc df)))
  = complete r.
Proof.
  intros Hin. unfold complete.
  set (ks := filter (fun k => negb (key_isna k)) (map loc df)).
  destruct (key_isna (loc r)) eqn:Hna; simpl.
  - destruct (existsb (key_eq (loc r)) (unique_keys ks)) eqn:Hex;
      [ | reflexivity ].
    apply existsb_exists in Hex. destruct Hex as [k [Hk Hrk]].
    apply unique_keys_incl, filter_In in Hk. destruct Hk as [_ Hk].
    apply negb_true_iff in Hk. apply key_eq_isna in Hrk. congruence.
  - destruct (unique_keys_match ks (loc r)) as [k0 [Hf [_ Hk0]]].
    { exists (loc r). split; [ | apply key_eq_refl ].
      apply filter_In. split; [ now apply in_map | now rewrite Hna ]. }
    apply existsb_exists. exists k0. split; [ | exact Hk0 ].
    assert (Hin0 : In k0 (filter (key_eq (loc r)) (unique_keys ks)))
      by (rewrite Hf; now left).
    apply filter_In in Hin0. tauto.
Qed.

Lemma group_summary_keys {L : Library} (df : list Row) :
  map loc (_group_same_hosts df) = group_keys df.
Proof.
  unfold _group_same_hosts. rewrite map_map. apply map_id.
Qed.

(** X4: grouping is a partition of the rows whose key is complete: the
    groups of the summaries, put together, are these rows, each once; no
    group is empty; and the labels of a summary are those of its group, in
    the order of the frame. *)
Theorem groups_partition_rows {L : Library} (df : list Row) :
  Permutation
    (flat_map (fun g => members df (loc g)) (_group_same_hosts df))
    (filter complete df)
  /\ forall g, In g (_group_same_hosts df) ->
       members df (loc g) <> []
       /\ issue g = Str (join_labels (map issue (members df (loc g))))
       /\ year g = Str (join_labels (map year (members df (loc g)))).
Proof.
  split.
  - rewrite (flat_map_concat_map (fun g => members df (loc g))).
    rewrite <- (map_map loc (members df)), group_summary_keys.
    rewrite <- flat_map_concat_map.
    eapply Permutation_trans;
      [ apply Permutation_flat_map, Permutation_sym, sort_keys_perm | ].
    eapply Permutation_trans;
      [ apply members_of_distinct, distinct_unique_keys | ].
    erewrite filter_ext_in; [ apply Permutation_refl | ].
    intros r Hr. now apply group_keys_cover.
  - intros g Hg. unfold _group_same_hosts in Hg.
    apply in_map_iff in Hg. destruct Hg as [k [<- Hk]].
    split; [ | split; reflexivity ].
    apply group_keys_in in Hk. destruct Hk as [_ [r [Hr <-]]].
    cbn [summarize loc]. intros Hnil.
    assert (Hin : In r (members df (loc r)))
      by (apply filter_In; split; [ exact Hr | apply key_eq_refl ]).
    rewrite Hnil in Hin. destruct Hin.
Qed.

(** ** The order of the summaries *)

Lemma float_compare_antisym (a b : spec_float) :
  float_compare b a = CompOpp (float_compare a b).
Proof.
  unfold float_compare.
  destruct a as [sa|sa| |sa ma ea], b as [sb|sb| |sb mb eb]; simpl;
    try reflexivity;
    try (destruct sa; reflexivity);
    try (destruct sb; reflexivity);
    try (destruct sa, sb; reflexivity).
  change (PosDef.Pos.compare_cont Eq mb ma) with (Pos.compare mb ma).
  change (PosDef.Pos.compare_cont Eq ma mb) with (Pos.compare ma mb).
  rewrite (Z.compare_antisym ea eb), (Pos.compare_antisym ma mb).
  destruct sa, sb; try reflexivity;
    destruct (Z.compare ea eb); simpl; try reflexivity;
    destruct (Pos.compare ma mb); reflexivity.
Qed.

Lemma obj_compare_antisym (a b : option string) :
  obj_compare b a = CompOpp (obj_compare a b).
Proof.
  destruct a as [x|], b as [y|]; simpl; try reflexivity.
  apply String.compare_antisym.
Qed.

Lemma key_compare_antisym (a b : LocationKey) :
  key_compare b a = CompOpp (key_compare a b).
Proof.
  unfold key_compare.
  rewrite (obj_compare_antisym (city a)), (obj_compare_antisym (country a)),
    (float_compare_antisym (latitude a)), (float_compare_antisym (longitude a)).
  destruct (obj_compare (city a) (city b)); simpl; try reflexivity.
  destruct (obj_compare (country a) (country b)); simpl; try reflexivity.
  destruct (float_compare (latitude a) (latitude b)); reflexivity.
Qed.

Lemma float_compare_eq (a b : spec_float) :
  is_nan a = false -> is_nan b = false ->
  float_compare a b = Eq -> float_eq a b = true.
Proof.
  unfold float_compare, float_eq, SFeqb. intros Ha Hb.
  destruct (SFcompare a b) as [c|] eqn:Hc.
  - now intros ->.
  - destruct a, b; simpl in *; discriminate.
Qed.

Lemma obj_compare_eq (a b : option string) :
  obj_compare a b = Eq -> obj_eq a b = true.
Proof.
  destruct a as [x|], b as [y|]; simpl; try discriminate; try reflexivity.
  intros E. apply String.compare_eq_iff in E. subst. apply String.eqb_refl.
Qed.

(** Between keys without a missing field, the order tells apart exactly the
    keys that the grouping tells apart. *)
Lemma key_compare_eq (a b : LocationKey) :
  key_isna a = false -> key_isna b = false ->
  key_compare a b = Eq -> key_eq a b = true.
Proof.
  unfold key_isna, key_compare, key_eq. intros Ha Hb.
  apply orb_false_iff in Ha. destruct Ha as [Ha Ha4].
  apply orb_false_iff in Ha. destruct Ha as [Ha Ha3].
  apply orb_false_iff in Hb. destruct Hb as [Hb Hb4].
  apply orb_false_iff in Hb. destruct Hb as [Hb Hb3].
  pose proof (obj_compare_eq (city a) (city b)) as H1.
  pose proof (obj_compare_eq (country a) (country b)) as H2.
  pose proof (float_compare_eq _ _ Ha3 Hb3) as H3.
  pose proof (float_compare_eq _ _ Ha4 Hb4) as H4.
  destruct (obj_compare (city a) (city b)); simpl; try discriminate.
  destruct (obj_compare (country a) (country b)); simpl; try discriminate.
  destruct (float_compare (latitude a) (latitude b)); simpl; try discriminate.
  intros E. now rewrite H1, H2, H3, H4.
Qed.

Lemma insert_key_hd (k h : LocationKey) (l : list LocationKey) :
  key_lt h k -> HdRel key_lt h l -> HdRel key_lt h (insert_key k l).
Proof.
  intros Hhk Hhl. destruct l as [|x l]; simpl; [ now constructor | ].
  destruct (key_leb k x); constructor; [ exact Hhk | ].
  now apply HdRel_inv in Hhl.
Qed.

Lemma insert_key_sorted (k : LocationKey) (l : list LocationKey) :
  (forall k', In k' l -> key_compare k k' <> Eq) ->
  Sorted key_lt l -> Sorted key_lt (insert_key k l).
Proof.
  induction l as [|h t IH]; intros Hne Hs; simpl.
  - repeat constructor.
  - apply Sorted_inv in Hs. destruct Hs as [Hst Hhd].
    pose proof (Hne h (or_introl eq_refl)) as Hkh.
    unfold key_leb. destruct (key_compare k h) eqn:Hc.
    + congruence.
    + constructor; [ now constructor | now constructor ].
    + constructor.
      * apply IH; [ | exact Hst ]. intros k' Hk'. apply Hne. now right.
      * apply insert_key_hd; [ | exact Hhd ].
        unfold key_lt. now rewrite key_compare_antisym, Hc.
Qed.

Lemma sort_keys_sorted (ks : list LocationKey) :
  distinct_keys ks ->
  (forall k, In k ks -> key_isna k = false) ->
  Sorted key_lt (sort_keys ks).
Proof.
  unfold sort_keys.
  induction ks as [|k ks IH]; simpl; intros Hd Hna; [ constructor | ].
  destruct Hd as [Hk Hd].
  apply insert_key_sorted.
  - intros k' Hk' Hc.
    apply (Permutation_in _ (Permutation_sym (sort_keys_perm ks))) in Hk'.
    apply key_compare_eq in Hc;
      [ | apply Hna; now left | apply Hna; now right ].
    rewrite key_eq_sym, (Hk k' Hk') in Hc. discriminate.
  - apply IH; [ exact Hd | ]. intros x Hx. apply Hna. now right.
Qed.

(** X5: the summaries come out in the order of their keys, strictly
    increasing from each to the next (so no key comes twice): column by
    column, text by code point and coordinates by value. *)
Theorem group_summaries_sorted {L : Library} (df : list Row) :
  Sorted key_lt (map loc (_group_same_hosts df)).
Proof.
  rewrite group_summary_keys. unfold group_keys.
  apply sort_keys_sorted; [ apply distinct_unique_keys | ].
  intros k Hk. apply unique_keys_incl, filter_In in Hk.
  destruct Hk as [_ Hk]. now apply negb_true_iff in Hk.
Qed.

(** ** [_join_ejcs_grouped] on any right frame *)

Lemma join_cons (r : Row) (df right : list Row) :
  _join_ejcs_grouped (r :: df) right
  = match matches (loc r) right with
    | [] => [ {| issue := NaN; year := NaN; loc := loc r |} ]
    | ms => map (fun g => {| issue := issue g; year := year g; loc := loc r |}) ms
    end ++ _join_ejcs_grouped df right.
Proof. reflexivity. Qed.

Lemma length_join_row (r : Row) (right : list Row) :
  List.length
    match matches (loc r) right with
    | [] => [ {| issue := NaN; year := NaN; loc := loc r |} ]
    | ms => map (fun g => {| issue := issue g; year := year g; loc := loc r |}) ms
    end
  = Nat.max 1 (List.length (matches (loc r) right)).
Proof.
  destruct (matches (loc r) right) as [|g ms]; [ reflexivity | ].
  rewrite length_map. simpl. lia.
Qed.

(** X6: whatever the right frame, the joiner drops no row of the left
    frame, and it returns exactly as many rows as the left frame has if and
    only if no left row has two matching rows on the right: a key twice on
    the right repeats the left rows at that key. *)
Theorem join_row_count (df right : list Row) :
  (List.length df <= List.length (_join_ejcs_grouped df right))%nat
  /\ (List.length (_join_ejcs_grouped df right) = List.length df
      <-> forall r, In r df -> (List.length (matches (loc r) right) <= 1)%nat).
Proof.
  induction df as [|r df [IHle IHiff]]; [ simpl; split; [ lia | ] | ].
  - split; [ intros _ r [] | reflexivity ].
  - rewrite join_cons, length_app, length_join_row. cbn [List.length].
    split; [ lia | ]. split.
    + intros Hlen x [<- | Hx]; [ lia | ].
      apply IHiff; [ lia | exact Hx ].
    + intros Hone.
      pose proof (Hone r (or_introl eq_refl)) as Hr.
      assert (Hrest : List.length (_join_ejcs_grouped df right) = List.length df)
        by (apply IHiff; intros x Hx; apply Hone; now right).
      lia.
Qed.


(** X8: in the frame joined with its own groups, two rows at the same
    location carry the same [issue] and [year] labels. *)
Theorem same_host_same_labels {L : Library} (df : list Row) (i j : nat)
    (ri rj : Row) :
  nth_error df i = Some ri ->
  nth_error df j = Some rj ->
  key_eq (loc ri) (loc rj) = true ->
  exists oi oj,
    nth_error (_join_ejcs_grouped df (_group_same_hosts df)) i = Some oi
    /\ nth_error (_join_ejcs_grouped df (_group_same_hosts df)) j = Some oj
    /\ issue oi = issue oj /\ year oi = year oj.
Proof.
  intros Hi Hj Hk. rewrite join_grouped.
  exists (annotate df ri), (annotate df rj).
  rewrite !nth_error_map, Hi, Hj. split; [ reflexivity | ].
  split; [ reflexivity | ].
  unfold annotate. rewrite (key_eq_isna _ _ Hk).
  destruct (key_isna (loc rj)); cbn [issue year]; [ tauto | ].
  now rewrite (members_congr df _ _ Hk).
Qed.

Lemma same_host_same_labels_witness :
  nth_error df_paris 0 = Some {| issue := Int 1; year := Int 1990; loc := paris |}
  /\ nth_error df_paris 1 = Some {| issue := Int 2; year := Int 1995; loc := paris |}
  /\ key_eq paris paris = true
  /\ exists oi oj,
       nth_error (_join_ejcs_grouped df_paris
                    (_group_same_hosts (L := sample_library) df_paris)) 0 = Some oi
       /\ nth_error (_join_ejcs_grouped df_paris
                       (_group_same_hosts (L := sample_library) df_paris)) 1 = Some oj
       /\ issue oi = issue oj /\ year oi = year oj.
Proof.
  split; [ reflexivity | ]. split; [ reflexivity | ]. split; [ reflexivity | ].
  apply (same_host_same_labels (L := sample_library) df_paris 0 1
           {| issue := Int 1; year := Int 1990; loc := paris |}
           {| issue := Int 2; year := Int 1995; loc := paris |});
    reflexivity.
Defined.

(** ** [_read_colors] *)

Lemma read_colors_run {L : Library} (filename : string) (w : World) :
  _read_colors filename w
  = (match lookup filename (files w) with
     | Some text =>
         result_bind (json_loads text) (fun colors =>
         result_bind (iterate colors)
           (map_result (fun color => getitem color "color")))
     | None => Raise FileNotFoundError
     end, w).
Proof.
  unfold _read_colors, bind, read_text, lift.
  destruct (lookup filename (files w)) as [text|]; [ | reflexivity ].
  now destruct (json_loads text).
Qed.

Lemma map_result_all {A B : Type} (f : A -> result B) (l : list A) (bs : list B) :
  Forall2 (fun a b => f a = Ok b) l bs -> map_result f l = Ok bs.
Proof.
  induction 1 as [|a b l bs Hab _ IH]; simpl; [ reflexivity | ].
  now rewrite Hab, IH.
Qed.

Lemma map_result_first_failure {A B : Type} (f : A -> result B)
    (pre post : list A) (bad : A) (e : exn) :
  (forall a, In a pre -> exists b, f a = Ok b) ->
  f bad = Raise e ->
  map_result f (pre ++ bad :: post) = Raise e.
Proof.
  intros Hpre Hbad. induction pre as [|a pre IH]; simpl.
  - now rewrite Hbad.
  - destruct (Hpre a (or_introl eq_refl)) as [b Hb]. rewrite Hb. simpl.
    rewrite IH; [ reflexivity | ]. intros x Hx. apply Hpre. now right.
Qed.

(** X9: when the palette file holds a list whose every entry has a value
    under ["color"], [_read_colors] returns these values, as they are and
    in the order of the file, and changes nothing. *)
Theorem read_colors_well_formed {L : Library} (filename text : string)
    (w : World) (entries colors : list json) :
  lookup filename (files w) = Some text ->
  json_loads text = Ok (JList entries) ->
  Forall2 (fun entry c => getitem entry "color" = Ok c) entries colors ->
  _read_colors filename w = (Ok colors, w).
Proof.
  intros Hfile Hjson Hall.
  rewrite read_colors_run, Hfile, Hjson. simpl.
  now rewrite (map_result_all _ _ _ Hall).
Qed.

Lemma read_colors_well_formed_witness :
  lookup filename_colors (files world_full) = Some json_palette
  /\ json_loads (Library := palette_library) json_palette
     = Ok (JList [ JDict [ ("color", JStr "red") ];
                   JDict [ ("color", JStr "green") ] ])
  /\ Forall2 (fun entry c => getitem entry "color" = Ok c)
       [ JDict [ ("color", JStr "red") ]; JDict [ ("color", JStr "green") ] ]
       [ JStr "red"; JStr "green" ]
  /\ _read_colors (L := palette_library) filename_colors world_full
     = (Ok [ JStr "red"; JStr "green" ], world_full).
Proof.
  assert (Hall : Forall2 (fun entry c => getitem entry "color" = Ok c)
                   [ JDict [ ("color", JStr "red") ];
                     JDict [ ("color", JStr "green") ] ]
                   [ JStr "red"; JStr "green" ])
    by (repeat constructor).
  split; [ reflexivity | ]. split; [ reflexivity | ]. split; [ exact Hall | ].
  apply (read_colors_well_formed (L := palette_library)
           filename_colors json_palette world_full _ _ eq_refl eq_refl Hall).
Defined.

(** X10: the first entry of the list that has no value under ["color"]
    decides the error: [KeyError] for an object without that key,
    [TypeError] for an entry that is no object; the entries after it are
    not looked at, and nothing changes. *)
Theorem read_colors_bad_entry {L : Library} (filename text : string)
    (w : World) (pre post : list json) (bad : json) :
  lookup filename (files w) = Some text ->
  json_loads text = Ok (JList (pre ++ bad :: post)) ->
  (forall entry, In entry pre -> exists c, getitem entry "color" = Ok c) ->
  (forall c, getitem bad "color" <> Ok c) ->
  _read_colors filename w
  = (Raise match bad with
           | JDict _ => KeyError
           | _ => TypeError
           end, w).
Proof.
  intros Hfile Hjson Hpre Hbad.
  rewrite read_colors_run, Hfile, Hjson. simpl.
  rewrite (map_result_first_failure _ pre post bad
             match bad with JDict _ => KeyError | _ => TypeError end);
    [ reflexivity | exact Hpre | ].
  destruct bad as [ | | | | | | items]; try reflexivity.
  simpl in *. destruct (lookup "color" items) as [c|]; [ | reflexivity ].
  destruct (Hbad c eq_refl).
Qed.

Lemma read_colors_bad_entry_witness :
  lookup filename_colors (files world_full) = Some json_palette
  /\ _read_colors
       (L := library_reading
               (JList ([ JDict [ ("color", JStr "red") ] ]
                       ++ JDict [ ("colour", JStr "green") ] :: [ JNull ])))
       filename_colors world_full
     = (Raise KeyError, world_full).
Proof.
  split; [ reflexivity | ].
  apply (read_colors_bad_entry
           (L := library_reading
                   (JList ([ JDict [ ("color", JStr "red") ] ]
                           ++ JDict [ ("colour", JStr "green") ] :: [ JNull ])))
           filename_colors json_palette world_full
           [ JDict [ ("color", JStr "red") ] ] [ JNull ]
           (JDict [ ("colour", JStr "green") ]) eq_refl eq_refl).
  - intros entry [<- | []]. now exists (JStr "red").
  - intros c. discriminate.
Defined.

(** X11: a palette file whose top level is no list never gives colours: an
    object with a key, or a text with a character, ends in [TypeError],
    for the keys and characters it is read by are strings, which have
    nothing under ["color"]; so does a number, a boolean or null.  Only
    the empty object and the empty text read as the empty palette. *)
Theorem read_colors_not_a_list {L : Library} (filename text : string)
    (w : World) (v : json) :
  lookup filename (files w) = Some text ->
  json_loads text = Ok v ->
  (forall entries, v <> JList entries) ->
  _read_colors filename w
  = (match v with
     | JDict [] => Ok []
     | JStr EmptyString => Ok []
     | _ => Raise TypeError
     end, w).
Proof.
  intros Hfile Hjson Hnl.
  rewrite read_colors_run, Hfile, Hjson.
  destruct v as [ | b | z | f | s | l | items]; try reflexivity.
  - destruct s; reflexivity.
  - destruct (Hnl l eq_refl).
  - destruct items as [|[k x] items]; reflexivity.
Qed.

Lemma read_colors_not_a_list_witness :
  lookup filename_colors (files world_full) = Some json_palette
  /\ (forall entries, JDict [ ("color", JStr "red") ] <> JList entries)
  /\ _read_colors (L := library_reading (JDict [ ("color", JStr "red") ]))
       filename_colors world_full
     = (Raise TypeError, world_full).
Proof.
  assert (Hnl : forall entries, JDict [ ("color", JStr "red") ] <> JList entries)
    by (intros entries; discriminate).
  split; [ reflexivity | ]. split; [ exact Hnl | ].
  apply (read_colors_not_a_list
           (L := library_reading (JDict [ ("color", JStr "red") ]))
           filename_colors json_palette world_full
           (JDict [ ("color", JStr "red") ]) eq_refl eq_refl Hnl).
Defined.

(** ** Failures of [prepare_ejcs] and [main] *)

(** X12: a failure to load the dataset is the failure of the prepare step,
    whatever the palette: the file is read before the colours are cycled, so
    that even with an empty palette a missing dataset file shows as
    [FileNotFoundError], not as [ZeroDivisionError]. *)
Theorem prepare_load_failure {L : Library} {C : Type} (filename : string)
    (colors : list C) (w : World) (e : exn) :
  read_csv filename ";" w = (Raise e, w) ->
  prepare_ejcs filename colors w = (Raise e, w).
Proof.
  intros Hread. loaded Hread. now rewrite prepare_ejcs_run, Hread.
Qed.

Lemma prepare_load_failure_witness :
  read_csv (L := sample_library) filename_ejcs ";" world_no_dataset
  = (Raise FileNotFoundError, world_no_dataset)
  /\ prepare_ejcs (L := sample_library) filename_ejcs (@nil string)
       world_no_dataset
     = (Raise FileNotFoundError, world_no_dataset).
Proof.
  split; [ reflexivity | ].
  apply (prepare_load_failure (L := sample_library)). reflexivity.
Defined.

(** X13: [main] ends in the error of the palette read or, the palette read,
    in the error of the prepare step, and then the world is the one it
    started in: no figure is built, shown or written after a failure of
    either. *)
Theorem main_aborts_on_failed_load {L : Library} (w : World) (e : exn) :
  (_read_colors filename_colors w = (Raise e, w)
   \/ exists colors,
        _read_colors filename_colors w = (Ok colors, w)
        /\ prepare_ejcs filename_ejcs colors w = (Raise e, w)) ->
  main w = (Raise e, w).
Proof.
  intros [Hcolors | [colors [Hcolors Hprep]]].
  - unfold main, bind at 1. now rewrite Hcolors.
  - now rewrite (main_run w colors Hcolors), Hprep.
Qed.

Lemma main_aborts_on_failed_load_witness :
  (exists colors,
      _read_colors (L := sample_library) filename_colors world_no_dataset
      = (Ok colors, world_no_dataset)
      /\ prepare_ejcs (L := sample_library) filename_ejcs colors world_no_dataset
         = (Raise FileNotFoundError, world_no_dataset))
  /\ main (L := sample_library) world_no_dataset
     = (Raise FileNotFoundError, world_no_dataset).
Proof.
  assert (H : exists colors,
             _read_colors (L := sample_library) filename_colors world_no_dataset
             = (Ok colors, world_no_dataset)
             /\ prepare_ejcs (L := sample_library) filename_ejcs colors
                  world_no_dataset
                = (Raise FileNotFoundError, world_no_dataset))
    by (exists []; split; reflexivity).
  split; [ exact H | ].
  apply (main_aborts_on_failed_load (L := sample_library)). right. exact H.
Defined.

(** ** [create_output] and the run of [main] that succeeds *)

Lemma length_append (s1 s2 : string) :
  String.length (s1 ++ s2) = (String.length s1 + String.length s2)%nat.
Proof. induction s1 as [|c s1 IH]; simpl; [ reflexivity | now rewrite IH ]. Qed.


Lemma html_path_not_index (output_folder : string) :
  html_path output_folder <> "index.html".
Proof.
  intros E. apply (f_equal String.length) in E.
  unfold html_path in E. rewrite length_append in E. simpl in E. lia.
Qed.











